(** * c_segfault: a shallow embedding of [examples/c_segfault.c]

    The program builds one [struct User] on the heap, prints its name and then
    reads [user->manager->name] although [manager] is [NULL].  The embedding
    keeps the three functions of the translation unit ([find_user],
    [print_manager_name], [main]) as computations in a state-and-fault monad
    over an explicit heap of [struct User] cells and the characters sent to
    standard output. *)

From Stdlib Require Import ZArith String Ascii List Lia.
From stdpp Require Import gmap strings.

Local Open Scope Z_scope.

(** ** Data model *)

(** Heap addresses.  A pointer is either [NULL] or the address of a cell. *)
Definition loc := positive.

Inductive ptr : Type :=
  | NULL
  | Ptr (l : loc).

(** [if (p)] in C: a pointer is true when it is not [NULL]. *)
Definition truthy (p : ptr) : bool :=
  match p with
  | NULL => false
  | Ptr _ => true
  end.

(** [struct User { int id; char *name; struct User *manager; }].
    A field of a cell that [malloc] has just handed out holds no value yet:
    [None] is that indeterminate content.  An [int] is a [Z] (the program does
    no arithmetic on it), and a [char *] that points to a string literal is the
    text of that literal. *)
Record User : Type := mkUser {
  id : option Z;
  name : option string;
  manager : option ptr;
}.

(** The content of a freshly allocated cell. *)
Definition uninit : User := {| id := None; name := None; manager := None |}.

Definition set_id (v : Z) (u : User) : User :=
  {| id := Some v; name := name u; manager := manager u |}.
Definition set_name (v : string) (u : User) : User :=
  {| id := id u; name := Some v; manager := manager u |}.
Definition set_manager (v : ptr) (u : User) : User :=
  {| id := id u; name := name u; manager := Some v |}.

(** Function entries, recorded in program order (ghost state: the C program
    has no such log, it only serves to state which function was reached). *)
Inductive call : Type :=
  | call_find_user (arg : Z)
  | call_print_manager_name (arg : ptr).

(** The state of the running process. *)
Record state : Type := mkState {
  heap : gmap loc User;
  stdout : string;
  calls : list call;
}.

(** The three ways the program changes the state. *)
Definition set_heap (h : gmap loc User) (s : state) : state :=
  {| heap := h; stdout := stdout s; calls := calls s |}.
Definition emit (txt : string) (s : state) : state :=
  {| heap := heap s; stdout := stdout s +:+ txt; calls := calls s |}.
Definition log_call (c : call) (s : state) : state :=
  {| heap := heap s; stdout := stdout s; calls := calls s ++ [c] |}.

(** ** The monad: state passing with a fault

    A computation either returns a value and a new state, or faults (the
    invalid memory access that kills the process); the state reached at the
    fault is kept, so that what was printed before it can be observed. *)
Inductive outcome (A : Type) : Type :=
  | Ok (a : A) (s : state)
  | Fault (s : state).
Arguments Ok {A} a s.
Arguments Fault {A} s.

Definition M (A : Type) : Type := state -> outcome A.

Definition ret {A} (a : A) : M A := fun s => Ok a s.

Definition bind {A B} (m : M A) (k : A -> M B) : M B :=
  fun s =>
    match m s with
    | Ok a s' => k a s'
    | Fault s' => Fault s'
    end.

#[global] Instance M_ret : MRet M := @ret.
#[global] Instance M_bind : MBind M := fun A B k m => bind m k.

(** The state in which a computation stopped, whichever way it stopped. *)
Definition final {A} (o : outcome A) : state :=
  match o with
  | Ok _ s => s
  | Fault s => s
  end.

(** ** Memory and output primitives *)

(** [malloc(sizeof(struct User))]: a cell at an address that is not in use,
    with indeterminate fields.  Memory is unbounded, so the allocation
    succeeds. *)
Definition malloc : M ptr :=
  fun s =>
    let l := fresh (dom (heap s)) in
    Ok (Ptr l) (set_heap (<[l := uninit]> (heap s)) s).

(** [p->f] as an rvalue: a fault when [p] is [NULL] or designates no live
    cell, or when the field was never written. *)
Definition load {A} (f : User -> option A) (p : ptr) : M A :=
  fun s =>
    match p with
    | NULL => Fault s
    | Ptr l =>
        match heap s !! l with
        | None => Fault s
        | Some u =>
            match f u with
            | None => Fault s
            | Some v => Ok v s
            end
        end
    end.

(** [p->f = v]: a fault when [p] is [NULL] or designates no live cell. *)
Definition store (upd : User -> User) (p : ptr) : M unit :=
  fun s =>
    match p with
    | NULL => Fault s
    | Ptr l =>
        match heap s !! l with
        | None => Fault s
        | Some u => Ok tt (set_heap (<[l := upd u]> (heap s)) s)
        end
    end.

(** The newline character, written [\n] in the C source. *)
Definition nl : string := String (ascii_of_nat 10) EmptyString.

(** Expansion of a [printf] format whose only conversion is [%s]; [None] when
    an argument is missing. *)
Fixpoint format (fmt : string) (args : list string) : option string :=
  match fmt with
  | EmptyString => Some EmptyString
  | String c rest =>
      match rest with
      | String d rest' =>
          if (Ascii.eqb c "%" && Ascii.eqb d "s")%bool then
            match args with
            | a :: args' => option_map (String.append a) (format rest' args')
            | [] => None
            end
          else option_map (String c) (format rest args)
      | EmptyString => Some (String c EmptyString)
      end
  end.

(** [printf(fmt, args...)]: the expanded text is appended to standard
    output.  Both texts the program prints end in a newline and standard
    output is taken as line buffered, so a text counts as written once
    [printf] has returned. *)
Definition printf (fmt : string) (args : list string) : M unit :=
  fun s =>
    match format fmt args with
    | None => Fault s
    | Some txt => Ok tt (emit txt s)
    end.

(** Ghost: record that a function was entered. *)
Definition enter (c : call) : M unit :=
  fun s => Ok tt (log_call c s).

(** ** The program *)

Definition find_user (id : Z) : M ptr :=
  enter (call_find_user id);;
  if negb (id =? 1) then
    mret NULL
  else
    user ← malloc;
    store (set_id 1) user;;
    store (set_name "Alice") user;;
    store (set_manager NULL) user;;
    mret user.

Definition print_manager_name (user : ptr) : M unit :=
  enter (call_print_manager_name user);;
  mgr ← load manager user;
  mgr_name ← load name mgr;
  printf ("Manager: %s" +:+ nl) [mgr_name].

Definition main : M Z :=
  user ← find_user 1;
  (if truthy user then
     user_name ← load name user;
     printf ("Found user: %s" +:+ nl) [user_name];;
     print_manager_name user
   else
     mret tt);;
  mret 0.

(** The entry point with the looked-up identifier made a parameter; [main]
    is its instance at [1]. *)
Definition main_with (id : Z) : M Z :=
  user ← find_user id;
  (if truthy user then
     user_name ← load name user;
     printf ("Found user: %s" +:+ nl) [user_name];;
     print_manager_name user
   else
     mret tt);;
  mret 0.

(** ** The process as seen from outside *)

(** How the process ended: [return] from [main] with an exit status, or the
    fault (the signal raised by the invalid access). *)
Inductive termination : Type :=
  | Exited (status : Z)
  | Faulted.

Record behaviour : Type := mkBehaviour {
  output : string;
  ending : termination;
  trace : list call;
}.

(** The process starts with nothing printed and no function entered; what
    its memory holds at start is left open. *)
Definition init (h : gmap loc User) : state :=
  {| heap := h; stdout := EmptyString; calls := [] |}.

Definition run (prog : M Z) (s : state) : behaviour :=
  match prog s with
  | Ok status s' =>
      {| output := stdout s'; ending := Exited status; trace := calls s' |}
  | Fault s' =>
      {| output := stdout s'; ending := Faulted; trace := calls s' |}
  end.

(** The lines of a text: maximal runs of characters other than newline, each
    ended by a newline or by the end of the text. *)
Fixpoint lines (s : string) : list string :=
  match s with
  | EmptyString => []
  | String c rest =>
      if Ascii.eqb c (ascii_of_nat 10) then EmptyString :: lines rest
      else
        match lines rest with
        | [] => [String c EmptyString]
        | ln :: lns => String c ln :: lns
        end
  end.

(** A line of the "Found user" kind, and one of the manager report kind. *)
Definition is_found_line (ln : string) : bool := String.prefix "Found user" ln.
Definition is_manager_line (ln : string) : bool := String.prefix "Manager: " ln.

(** Whether a call of [print_manager_name] occurs in a trace. *)
Definition is_report_call (c : call) : bool :=
  match c with
  | call_print_manager_name _ => true
  | call_find_user _ => false
  end.

Definition reports (tr : list call) : bool := existsb is_report_call tr.


(** The record that [find_user] builds. *)
Definition alice : User :=
  {| id := Some 1; name := Some "Alice"; manager := Some NULL |}.

(** Two sample heaps: one where record [1] has no manager, one where record
    [1] is managed by record [2]. *)
Definition heap_alone : gmap loc User := {[ 1%positive := alice ]}.

Definition heap_managed : gmap loc User :=
  <[ 1%positive := {| id := Some 7; name := Some "Bob"; manager := Some (Ptr 2%positive) |} ]>
    {[ 2%positive := {| id := Some 8; name := Some "Carol"; manager := Some NULL |} ]}.

(** * Properties *)

(** ** Unfolding the monad *)

Lemma bind_run {A B} (m : M A) (k : A -> M B) (s : state) :
  (m ≫= k) s = match m s with
               | Ok a s' => k a s'
               | Fault s' => Fault s'
               end.
Proof. reflexivity. Qed.

Lemma ret_run {A} (a : A) (s : state) : (mret a : M A) s = Ok a s.
Proof. reflexivity. Qed.

Lemma load_live {A} (f : User -> option A) l u v s :
  heap s !! l = Some u -> f u = Some v -> load f (Ptr l) s = Ok v s.
Proof. intros Hl Hf. unfold load. now rewrite Hl, Hf. Qed.

Lemma load_unset {A} (f : User -> option A) l u s :
  heap s !! l = Some u -> f u = None -> load f (Ptr l) s = Fault s.
Proof. intros Hl Hf. unfold load. now rewrite Hl, Hf. Qed.

Lemma load_NULL {A} (f : User -> option A) s : load f NULL s = Fault s.
Proof. reflexivity. Qed.

Lemma store_live upd l u s :
  heap s !! l = Some u ->
  store upd (Ptr l) s = Ok tt (set_heap (<[l := upd u]> (heap s)) s).
Proof. intros Hl. unfold store. now rewrite Hl. Qed.

Lemma printf_run fmt args txt s :
  format fmt args = Some txt -> printf fmt args s = Ok tt (emit txt s).
Proof. intros Hf. unfold printf. now rewrite Hf. Qed.

Lemma format_found (who : string) :
  format ("Found user: %s" +:+ nl) [who] = Some ("Found user: " +:+ who +:+ nl).
Proof. reflexivity. Qed.

Lemma format_manager (who : string) :
  format ("Manager: %s" +:+ nl) [who] = Some ("Manager: " +:+ who +:+ nl).
Proof. reflexivity. Qed.

Lemma set_heap_set_heap h1 h2 s : set_heap h2 (set_heap h1 s) = set_heap h2 s.
Proof. reflexivity. Qed.

Lemma heap_set_heap h s : heap (set_heap h s) = h.
Proof. reflexivity. Qed.

(** One [p->f = v;] on the cell that was just written at [l] with [u]: the
    store succeeds and the two writes at [l] collapse into one. *)
Ltac store_step l u :=
  rewrite bind_run, (store_live _ l u)
    by (rewrite heap_set_heap; apply lookup_insert_eq);
  rewrite heap_set_heap, insert_insert_eq, set_heap_set_heap.

(** ** The lookup operation *)

(** On the recognised identifier the lookup allocates a cell at the first
    free address and leaves [alice] in it; nothing else changes but the
    call log. *)
Lemma find_user_found (s : state) :
  find_user 1 s =
    Ok (Ptr (fresh (dom (heap s))))
       (set_heap (<[fresh (dom (heap s)) := alice]> (heap s))
                 (log_call (call_find_user 1) s)).
Proof.
  unfold find_user. rewrite bind_run. cbn [enter Z.eqb negb Pos.eqb].
  rewrite bind_run. unfold malloc at 1. cbn [heap log_call].
  set (l := fresh (dom (heap s))).
  store_step l uninit.
  store_step l (set_id 1 uninit).
  store_step l (set_name "Alice" (set_id 1 uninit)).
  reflexivity.
Qed.

(** On any other identifier it returns [NULL] and touches neither the heap
    nor the output. *)
Lemma find_user_not_found (id : Z) (s : state) :
  id <> 1 -> find_user id s = Ok NULL (log_call (call_find_user id) s).
Proof.
  intros Hid. unfold find_user. rewrite bind_run. cbn [enter].
  destruct (Z.eqb_spec id 1) as [->|_]; [contradiction|reflexivity].
Qed.

(** The lookup never faults. *)
Lemma find_user_total (id : Z) (s : state) :
  exists p s', find_user id s = Ok p s'.
Proof.
  destruct (Z.eq_dec id 1) as [->|Hid].
  - rewrite find_user_found. eauto.
  - rewrite find_user_not_found by assumption. eauto.
Qed.

(** The cell handed out on success was not in use before, so the records
    already on the heap are still there afterwards. *)
Lemma find_user_frame (id : Z) (s s' : state) (p : ptr) (l : loc) (u : User) :
  find_user id s = Ok p s' -> heap s !! l = Some u -> heap s' !! l = Some u.
Proof.
  intros Hrun Hl. destruct (Z.eq_dec id 1) as [->|Hid].
  - rewrite find_user_found in Hrun. injection Hrun as _ <-.
    rewrite heap_set_heap, lookup_insert_ne; [exact Hl|].
    intros <-. apply (is_fresh (dom (heap s))), elem_of_dom. eauto.
  - rewrite find_user_not_found in Hrun by assumption. now injection Hrun as _ <-.
Qed.

(** ** The reporting operation *)

(** With a live record whose manager is [NULL], the operation faults when it
    evaluates [user->manager->name], before [printf] is called. *)
Lemma print_manager_name_fault (s : state) (l : loc) (u : User) :
  heap s !! l = Some u -> manager u = Some NULL ->
  print_manager_name (Ptr l) s =
    Fault (log_call (call_print_manager_name (Ptr l)) s).
Proof.
  intros Hl Hm. unfold print_manager_name.
  rewrite bind_run. cbn [enter].
  rewrite bind_run, (load_live manager l u NULL) by assumption.
  rewrite bind_run, load_NULL. reflexivity.
Qed.

(** With a live record whose manager is a live record with a name, it prints
    the report line. *)
Lemma print_manager_name_line (s : state) (l m : loc) (u mu : User) (who : string) :
  heap s !! l = Some u -> manager u = Some (Ptr m) ->
  heap s !! m = Some mu -> name mu = Some who ->
  print_manager_name (Ptr l) s =
    Ok tt (emit ("Manager: " +:+ who +:+ nl)
                (log_call (call_print_manager_name (Ptr l)) s)).
Proof.
  intros Hl Hm Hml Hn. unfold print_manager_name.
  rewrite bind_run. cbn [enter].
  rewrite bind_run, (load_live manager l u (Ptr m)) by assumption.
  rewrite bind_run, (load_live name m mu who) by assumption.
  apply printf_run, format_manager.
Qed.

(** ** The entry point *)

Lemma main_is_main_with_1 : main = main_with 1.
Proof. reflexivity. Qed.

(** The found path: one line is printed, the reporting operation is entered
    and faults. *)
Lemma main_with_found (s : state) :
  main_with 1 s =
    Fault (log_call (call_print_manager_name (Ptr (fresh (dom (heap s)))))
             (emit ("Found user: Alice" +:+ nl)
                (set_heap (<[fresh (dom (heap s)) := alice]> (heap s))
                   (log_call (call_find_user 1) s)))).
Proof.
  unfold main_with. rewrite bind_run, find_user_found. cbn [truthy].
  set (l := fresh (dom (heap s))).
  set (s1 := set_heap _ _).
  assert (Hl : heap s1 !! l = Some alice) by apply lookup_insert_eq.
  rewrite 2!bind_run, (load_live name l alice "Alice") by (exact Hl || reflexivity).
  rewrite bind_run, (printf_run _ _ _ _ (format_found "Alice")).
  rewrite (print_manager_name_fault _ l alice) by (exact Hl || reflexivity).
  reflexivity.
Qed.

(** The not-found path: nothing but the lookup happens, and [main] returns
    [0]. *)
Lemma main_with_not_found (id : Z) (s : state) :
  id <> 1 -> main_with id s = Ok 0 (log_call (call_find_user id) s).
Proof.
  intros Hid. unfold main_with.
  rewrite bind_run, find_user_not_found by assumption. reflexivity.
Qed.

Lemma run_main_with_found (h : gmap loc User) :
  run (main_with 1) (init h) =
    {| output := "Found user: Alice" +:+ nl;
       ending := Faulted;
       trace := [call_find_user 1;
                 call_print_manager_name (Ptr (fresh (dom h)))] |}.
Proof. unfold run. now rewrite main_with_found. Qed.

Lemma run_main_with_not_found (id : Z) (h : gmap loc User) :
  id <> 1 ->
  run (main_with id) (init h) =
    {| output := EmptyString; ending := Exited 0; trace := [call_find_user id] |}.
Proof. intros Hid. unfold run. now rewrite main_with_not_found. Qed.

(** * The claims *)

(** C1. For identifier [1] the lookup returns a pointer to a record whose
    name is "Alice" and whose manager is [NULL], whatever the state it is
    called in. *)
Theorem find_user_1_alice (s : state) :
  exists l s' u,
    find_user 1 s = Ok (Ptr l) s' /\
    heap s' !! l = Some u /\
    name u = Some "Alice" /\
    manager u = Some NULL.
Proof.
  exists (fresh (dom (heap s))). eexists. exists alice.
  split; [apply find_user_found|].
  rewrite heap_set_heap, lookup_insert_eq. auto.
Qed.

(** C2. Called on a live record whose manager is [NULL], the reporting
    operation ends in the fault; it has printed nothing and changed no
    record when it does, and whatever the caller meant to do next, the
    process ends in the fault. *)
Theorem print_manager_name_absent_faults
    (s : state) (l : loc) (u : User) (k : unit -> M Z) :
  heap s !! l = Some u ->
  manager u = Some NULL ->
  (exists s',
     print_manager_name (Ptr l) s = Fault s' /\
     stdout s' = stdout s /\
     heap s' = heap s) /\
  ending (run (print_manager_name (Ptr l) ≫= k) s) = Faulted.
Proof.
  intros Hl Hm.
  pose proof (print_manager_name_fault s l u Hl Hm) as Hrun.
  split.
  - eexists. split; [exact Hrun|]. split; reflexivity.
  - unfold run. rewrite bind_run, Hrun. reflexivity.
Qed.

Lemma print_manager_name_absent_faults_witness :
  (exists s',
     print_manager_name (Ptr 1%positive) (init heap_alone) = Fault s' /\
     stdout s' = stdout (init heap_alone) /\
     heap s' = heap (init heap_alone)) /\
  ending (run (print_manager_name (Ptr 1%positive) ≫= fun _ => mret 0)
              (init heap_alone)) = Faulted.
Proof.
  apply (print_manager_name_absent_faults (init heap_alone) 1%positive alice);
    reflexivity.
Defined.

(** C3. The run of [main] prints the line "Found user: Alice" and then ends
    in the fault, not in an exit. *)
Theorem main_prints_alice_then_faults (h : gmap loc User) :
  output (run main (init h)) = "Found user: Alice" +:+ nl /\
  In "Found user: Alice" (lines (output (run main (init h)))) /\
  ending (run main (init h)) = Faulted.
Proof.
  rewrite main_is_main_with_1, run_main_with_found. cbn [output ending].
  split; [reflexivity|]. split; [|reflexivity].
  left. reflexivity.
Qed.

(** C4. The lookup returns a record exactly when the identifier is [1]; for
    every other identifier it returns [NULL] as a value, and it never
    faults. *)
Theorem find_user_record_iff_1 (ident : Z) (s : state) :
  ((exists l s', find_user ident s = Ok (Ptr l) s' /\ is_Some (heap s' !! l))
     <-> ident = 1) /\
  (find_user ident s = Ok NULL (log_call (call_find_user ident) s)
     <-> ident <> 1) /\
  (exists p s', find_user ident s = Ok p s').
Proof.
  split; [|split].
  - split.
    + intros (l & s' & Hrun & _).
      destruct (Z.eq_dec ident 1) as [|Hne]; [assumption|].
      rewrite find_user_not_found in Hrun by assumption. discriminate.
    + intros ->. eexists _, _. split; [apply find_user_found|].
      rewrite heap_set_heap, lookup_insert_eq. eauto.
  - split.
    + intros Hrun ->. rewrite find_user_found in Hrun. discriminate.
    + apply find_user_not_found.
  - apply find_user_total.
Qed.

(** C5. When the generalised entry point looks up an identifier other than
    [1], nothing is printed (so no "Found user" line) and the process exits
    with status [0]. *)
Theorem main_with_other_exits_0 (ident : Z) (h : gmap loc User) :
  ident <> 1 ->
  output (run (main_with ident) (init h)) = EmptyString /\
  (forall ln, In ln (lines (output (run (main_with ident) (init h)))) ->
              is_found_line ln = false) /\
  ending (run (main_with ident) (init h)) = Exited 0.
Proof.
  intros Hne. rewrite run_main_with_not_found by assumption.
  cbn [output ending lines]. split; [reflexivity|]. split; [|reflexivity].
  intros ln [].
Qed.

Lemma main_with_other_exits_0_witness :
  output (run (main_with 2) (init ∅)) = EmptyString /\
  (forall ln, In ln (lines (output (run (main_with 2) (init ∅)))) ->
              is_found_line ln = false) /\
  ending (run (main_with 2) (init ∅)) = Exited 0.
Proof. apply (main_with_other_exits_0 2 ∅). discriminate. Defined.

(** C6, as stated, fails: on the crash path the output does not consist of a
    "Found user" line followed by a manager report line.  The fault happens
    while the argument [user->manager->name] is evaluated, so the second
    [printf] is never called. *)
Lemma main_output_not_two_lines :
  ending (run main (init ∅)) = Faulted /\
  ~ (exists l1 l2,
       lines (output (run main (init ∅))) = [l1; l2] /\
       is_found_line l1 = true /\
       is_manager_line l2 = true).
Proof.
  rewrite main_is_main_with_1, run_main_with_found. cbn [output ending].
  split; [reflexivity|].
  intros (l1 & l2 & Hlines & _). discriminate Hlines.
Qed.

(** C6, amended. On the crash path exactly one line reaches standard output
    before the fault, the "Found user: Alice" line; the reporting operation
    has been entered, and no manager report line is written. *)
Theorem main_output_one_line (h : gmap loc User) :
  ending (run main (init h)) = Faulted /\
  lines (output (run main (init h))) = ["Found user: Alice"] /\
  forallb is_found_line (lines (output (run main (init h)))) = true /\
  existsb is_manager_line (lines (output (run main (init h)))) = false /\
  reports (trace (run main (init h))) = true.
Proof.
  rewrite main_is_main_with_1, run_main_with_found.
  cbn [output ending trace]. repeat split.
Qed.

(** C7. Called on a live record whose manager is a live record, the
    reporting operation returns normally, having appended the line
    "Manager: <name>" with that manager's name to standard output. *)
Theorem print_manager_name_present_prints
    (s : state) (l m : loc) (u mu : User) (who : string) :
  heap s !! l = Some u ->
  manager u = Some (Ptr m) ->
  heap s !! m = Some mu ->
  name mu = Some who ->
  exists s',
    print_manager_name (Ptr l) s = Ok tt s' /\
    stdout s' = stdout s +:+ ("Manager: " +:+ who +:+ nl) /\
    heap s' = heap s.
Proof.
  intros Hl Hm Hml Hn. eexists. split.
  - apply (print_manager_name_line s l m u mu who); assumption.
  - split; reflexivity.
Qed.

Lemma print_manager_name_present_prints_witness :
  exists s',
    print_manager_name (Ptr 1%positive) (init heap_managed) = Ok tt s' /\
    stdout s' = stdout (init heap_managed) +:+ ("Manager: " +:+ "Carol" +:+ nl) /\
    heap s' = heap (init heap_managed).
Proof.
  apply (print_manager_name_present_prints (init heap_managed) 1%positive 2%positive
           {| id := Some 7; name := Some "Bob"; manager := Some (Ptr 2%positive) |}
           {| id := Some 8; name := Some "Carol"; manager := Some NULL |} "Carol");
    reflexivity.
Defined.

(** C8. In a run of the entry point the reporting operation is entered
    exactly when the lookup returned a record, and the run ends in the fault
    exactly then; after a [NULL] result the operation is never reached. *)
Theorem report_reached_iff_found (ident : Z) (h : gmap loc User) :
  (reports (trace (run (main_with ident) (init h))) = true
     <-> exists l s', find_user ident (init h) = Ok (Ptr l) s') /\
  (ending (run (main_with ident) (init h)) = Faulted
     <-> exists l s', find_user ident (init h) = Ok (Ptr l) s') /\
  ((exists s', find_user ident (init h) = Ok NULL s')
     <-> reports (trace (run (main_with ident) (init h))) = false).
Proof.
  destruct (Z.eq_dec ident 1) as [->|Hne].
  - rewrite run_main_with_found, find_user_found. cbn [trace ending].
    repeat split; eauto; try discriminate.
    intros (s' & Hrun). discriminate Hrun.
  - rewrite run_main_with_not_found, find_user_not_found by assumption.
    cbn [trace ending].
    repeat split; eauto; try discriminate.
    + intros (l & s' & Hrun). discriminate Hrun.
    + intros (l & s' & Hrun). discriminate Hrun.
Qed.

(** C9. The program has no input: whatever the memory it starts with, two
    runs print the same text and end the same way. *)
Theorem main_deterministic (h1 h2 : gmap loc User) :
  output (run main (init h1)) = output (run main (init h2)) /\
  ending (run main (init h1)) = ending (run main (init h2)).
Proof.
  rewrite main_is_main_with_1, !run_main_with_found. split; reflexivity.
Qed.

(** C10. A record returned by the lookup has [1] in its identifier field,
    and [1] is the identifier that was looked up. *)
Theorem find_user_id_field (ident : Z) (s s' : state) (l : loc) :
  find_user ident s = Ok (Ptr l) s' ->
  exists u,
    heap s' !! l = Some u /\
    id u = Some 1 /\
    id u = Some ident.
Proof.
  intros Hrun. destruct (Z.eq_dec ident 1) as [->|Hne].
  - rewrite find_user_found in Hrun. injection Hrun as <- <-.
    exists alice. rewrite heap_set_heap, lookup_insert_eq. auto.
  - rewrite find_user_not_found in Hrun by assumption. discriminate.
Qed.

Lemma find_user_id_field_witness :
  exists u,
    heap (final (find_user 1 (init ∅))) !! 1%positive = Some u /\
    id u = Some 1 /\
    id u = Some 1.
Proof.
  apply (find_user_id_field 1 (init ∅) (final (find_user 1 (init ∅))) 1%positive).
  reflexivity.
Defined.

(** * Further properties of the three functions *)

(** ** Shared lemmas *)

(** The address the lookup allocates at is not in use before the call. *)
Lemma fresh_not_live (h : gmap loc User) : h !! fresh (dom h) = None.
Proof. apply not_elem_of_dom, is_fresh. Qed.

(** The next allocation does not hand out the cell just allocated. *)
Lemma fresh_after_alloc (h : gmap loc User) (u : User) :
  fresh (dom (<[fresh (dom h) := u]> h)) <> fresh (dom h).
Proof.
  intros Heq. pose proof (fresh_not_live (<[fresh (dom h) := u]> h)) as Hfree.
  rewrite Heq, lookup_insert_eq in Hfree. discriminate.
Qed.

(** Whether the reporting operation's unchecked precondition holds: the
    pointer designates a live record whose manager designates a live record
    that has a name. *)
Lemma print_manager_name_cases (p : ptr) (s : state) :
  (exists l u m mu who,
     p = Ptr l /\ heap s !! l = Some u /\ manager u = Some (Ptr m) /\
     heap s !! m = Some mu /\ name mu = Some who /\
     print_manager_name p s =
       Ok tt (emit ("Manager: " +:+ who +:+ nl)
                (log_call (call_print_manager_name p) s))) \/
  print_manager_name p s = Fault (log_call (call_print_manager_name p) s).
Proof.
  destruct p as [|l]; [right; reflexivity|].
  destruct (heap s !! l) as [u|] eqn:Hl; cycle 1.
  { right. unfold print_manager_name. rewrite bind_run. cbn [enter].
    rewrite bind_run. unfold load at 1. cbn [heap log_call].
    now rewrite Hl. }
  destruct (manager u) as [[|m]|] eqn:Hm.
  - right. now apply (print_manager_name_fault s l u).
  - destruct (heap s !! m) as [mu|] eqn:Hml; cycle 1.
    { right. unfold print_manager_name. rewrite bind_run. cbn [enter].
      rewrite bind_run, (load_live manager l u (Ptr m)) by assumption.
      rewrite bind_run. unfold load at 1. cbn [heap log_call].
      now rewrite Hml. }
    destruct (name mu) as [who|] eqn:Hn.
    + left. exists l, u, m, mu, who. repeat (split; [assumption || reflexivity|]).
      now apply (print_manager_name_line s l m u mu who).
    + right. unfold print_manager_name. rewrite bind_run. cbn [enter].
      rewrite bind_run, (load_live manager l u (Ptr m)) by assumption.
      rewrite bind_run, (load_unset name m mu) by assumption.
      reflexivity.
  - right. unfold print_manager_name. rewrite bind_run. cbn [enter].
    rewrite bind_run, (load_unset manager l u) by assumption.
    reflexivity.
Qed.

Lemma append_empty_r (t : string) : t +:+ EmptyString = t.
Proof.
  induction t as [|c t IH]; [reflexivity|].
  change (String c (t +:+ EmptyString) = String c t). now rewrite IH.
Qed.

(** ** The lookup operation: memory discipline *)

(** X1. A lookup that returns leaves standard output as it was and every
    record that was on the heap before it in place, unchanged. *)
Theorem find_user_preserves (ident : Z) (s s' : state) (p : ptr) :
  find_user ident s = Ok p s' ->
  stdout s' = stdout s /\
  heap s ⊆ heap s' /\
  (forall l u, heap s !! l = Some u -> heap s' !! l = Some u).
Proof.
  intros Hrun.
  assert (Hsub : stdout s' = stdout s /\ heap s ⊆ heap s').
  { destruct (Z.eq_dec ident 1) as [->|Hne].
    - rewrite find_user_found in Hrun. injection Hrun as _ <-.
      split; [reflexivity|]. rewrite heap_set_heap.
      apply insert_subseteq, fresh_not_live.
    - rewrite find_user_not_found in Hrun by assumption.
      injection Hrun as _ <-. split; reflexivity. }
  destruct Hsub as [Hout Hsub]. repeat split; [assumption..|].
  intros l u Hl. eapply lookup_weaken; eassumption.
Qed.

Lemma find_user_preserves_witness :
  stdout (final (find_user 1 (init heap_managed))) = stdout (init heap_managed) /\
  heap (init heap_managed) ⊆ heap (final (find_user 1 (init heap_managed))) /\
  (forall l u, heap (init heap_managed) !! l = Some u ->
               heap (final (find_user 1 (init heap_managed))) !! l = Some u).
Proof.
  apply (find_user_preserves 1 (init heap_managed)
           (final (find_user 1 (init heap_managed))) (Ptr 3%positive)).
  reflexivity.
Defined.

(** X2. A lookup that returns a record has allocated exactly one cell, at an
    address that was not in use; a lookup that returns [NULL] has left the
    heap as it was. *)
Theorem find_user_allocation (ident : Z) (s s' : state) (p : ptr) :
  find_user ident s = Ok p s' ->
  match p with
  | Ptr l =>
      heap s !! l = None /\
      dom (heap s') = {[ l ]} ∪ dom (heap s) /\
      size (heap s') = S (size (heap s))
  | NULL => heap s' = heap s
  end.
Proof.
  intros Hrun. destruct (Z.eq_dec ident 1) as [->|Hne].
  - rewrite find_user_found in Hrun. injection Hrun as <- <-.
    rewrite heap_set_heap. pose proof (fresh_not_live (heap s)) as Hfree.
    split; [assumption|]. split.
    + apply dom_insert_L.
    + now apply map_size_insert_None.
  - rewrite find_user_not_found in Hrun by assumption.
    injection Hrun as <- <-. reflexivity.
Qed.

Lemma find_user_allocation_witness :
  heap (init heap_managed) !! 3%positive = None /\
  dom (heap (final (find_user 1 (init heap_managed)))) =
    {[ 3%positive ]} ∪ dom (heap (init heap_managed)) /\
  size (heap (final (find_user 1 (init heap_managed)))) =
    S (size (heap (init heap_managed))).
Proof.
  apply (find_user_allocation 1 (init heap_managed)
           (final (find_user 1 (init heap_managed))) (Ptr 3%positive)).
  reflexivity.
Defined.

(** X3. Two lookups of identifier [1] in a row return two different
    pointers, each to its own record named "Alice" with no manager: the
    lookup builds a new record on every call. *)
Theorem find_user_twice_distinct (s : state) :
  exists l1 l2 s',
    (p1 ← find_user 1; p2 ← find_user 1; mret (p1, p2)) s
      = Ok (Ptr l1, Ptr l2) s' /\
    l1 <> l2 /\
    heap s' !! l1 = Some alice /\
    heap s' !! l2 = Some alice.
Proof.
  set (l1 := fresh (dom (heap s))).
  set (h1 := <[l1 := alice]> (heap s)).
  set (l2 := fresh (dom h1)).
  assert (Hne : l2 <> l1) by apply fresh_after_alloc.
  exists l1, l2. eexists. split; [|split; [congruence|]].
  - rewrite bind_run, find_user_found. fold l1 h1.
    rewrite bind_run, find_user_found, heap_set_heap. fold l2.
    reflexivity.
  - rewrite heap_set_heap. split.
    + rewrite lookup_insert_ne by assumption. apply lookup_insert_eq.
    + apply lookup_insert_eq.
Qed.

(** ** The reporting operation: when it returns, and what it touches *)


(** X5. Whatever its argument, the reporting operation changes no record on
    the heap; when it faults it has printed nothing, and when it returns it
    has appended one text that starts with "Manager: " and ends in a
    newline. *)
Theorem print_manager_name_effects (p : ptr) (s : state) :
  heap (final (print_manager_name p s)) = heap s /\
  (forall s', print_manager_name p s = Fault s' -> stdout s' = stdout s) /\
  (forall s', print_manager_name p s = Ok tt s' ->
     exists who, stdout s' = stdout s +:+ ("Manager: " +:+ who +:+ nl)).
Proof.
  destruct (print_manager_name_cases p s)
    as [(l & u & m & mu & who & _ & _ & _ & _ & _ & Hrun)|Hrun];
    rewrite Hrun; cbn [final].
  - split; [reflexivity|]. split; [discriminate|].
    intros s' [= <-]. exists who. reflexivity.
  - split; [reflexivity|]. split; [|discriminate].
    intros s' [= <-]. reflexivity.
Qed.

(** ** How the operations compose *)

(** X6. No result of the lookup can be reported on: whatever the identifier
    and the state, passing what [find_user] returned (a fresh record without
    manager, or [NULL]) to [print_manager_name] faults with nothing
    printed. *)
Theorem find_user_result_not_reportable (ident : Z) (s s' : state) (p : ptr) :
  find_user ident s = Ok p s' ->
  exists s'',
    print_manager_name p s' = Fault s'' /\
    stdout s'' = stdout s.
Proof.
  intros Hrun. destruct (Z.eq_dec ident 1) as [->|Hne].
  - rewrite find_user_found in Hrun. injection Hrun as <- <-.
    eexists. split.
    + apply (print_manager_name_fault _ _ alice); [|reflexivity].
      rewrite heap_set_heap. apply lookup_insert_eq.
    + reflexivity.
  - rewrite find_user_not_found in Hrun by assumption.
    injection Hrun as <- <-. eexists. split; reflexivity.
Qed.

Lemma find_user_result_not_reportable_witness :
  exists s'',
    print_manager_name NULL (final (find_user 5 (init heap_managed))) = Fault s'' /\
    stdout s'' = stdout (init heap_managed).
Proof.
  apply (find_user_result_not_reportable 5 (init heap_managed)
           (final (find_user 5 (init heap_managed))) NULL).
  reflexivity.
Defined.

(** X7. Once a caller has set the manager of one looked-up record to
    another looked-up record, the reporting operation returns and prints
    "Manager: Alice": the fault comes from the record the lookup builds, not
    from the report. *)
Theorem report_after_manager_set (s : state) :
  exists s',
    (user ← find_user 1;
     boss ← find_user 1;
     store (set_manager boss) user;;
     print_manager_name user) s = Ok tt s' /\
    stdout s' = stdout s +:+ ("Manager: Alice" +:+ nl).
Proof.
  set (l1 := fresh (dom (heap s))).
  set (h1 := <[l1 := alice]> (heap s)).
  set (l2 := fresh (dom h1)).
  assert (Hne : l2 <> l1) by apply fresh_after_alloc.
  eexists. split.
  - rewrite bind_run, find_user_found. fold l1 h1.
    rewrite bind_run, find_user_found, heap_set_heap. fold l2.
    rewrite bind_run, (store_live _ l1 alice); cycle 1.
    { rewrite heap_set_heap, lookup_insert_ne by assumption.
      apply lookup_insert_eq. }
    rewrite heap_set_heap, set_heap_set_heap.
    apply (print_manager_name_line _ l1 l2 (set_manager (Ptr l2) alice) alice "Alice").
    + rewrite heap_set_heap. apply lookup_insert_eq.
    + reflexivity.
    + rewrite heap_set_heap, lookup_insert_ne by congruence.
      apply lookup_insert_eq.
    + reflexivity.
  - reflexivity.
Qed.

(** ** The entry point from any state *)

(** X8. Whatever was printed before and whatever identifier is looked up,
    the entry point only appends to standard output (the "Found user: Alice"
    line on identifier [1], nothing otherwise), and it never exits with a
    status other than [0]. *)
Theorem main_with_appends (ident : Z) (s : state) :
  output (run (main_with ident) s) =
    stdout s +:+ (if ident =? 1 then "Found user: Alice" +:+ nl else EmptyString) /\
  ending (run (main_with ident) s) = (if ident =? 1 then Faulted else Exited 0) /\
  (forall k, ending (run (main_with ident) s) = Exited k -> k = 0).
Proof.
  unfold run. destruct (Z.eqb_spec ident 1) as [->|Hne].
  - rewrite main_with_found. cbn [output ending].
    split; [reflexivity|]. split; [reflexivity|]. discriminate.
  - rewrite main_with_not_found by assumption. cbn [output ending log_call stdout].
    split; [now rewrite append_empty_r|]. split; [reflexivity|].
    now intros k [= <-].
Qed.

(** X9. A run of the entry point enters the lookup once, first, and then
    the reporting operation at most once, on exactly the pointer the lookup
    returned. *)
Theorem main_with_call_order (ident : Z) (h : gmap loc User) :
  exists p s1,
    find_user ident (init h) = Ok p s1 /\
    trace (run (main_with ident) (init h)) =
      call_find_user ident ::
        (if truthy p then [call_print_manager_name p] else []).
Proof.
  destruct (Z.eq_dec ident 1) as [->|Hne].
  - eexists _, _. split; [apply find_user_found|].
    now rewrite run_main_with_found.
  - eexists _, _. split; [now apply find_user_not_found|].
    now rewrite run_main_with_not_found.
Qed.

(** X10. The entry point releases nothing: every record on the heap when it
    starts is still there, unchanged, when it stops, and on identifier [1]
    so is the record the lookup allocated. *)
Theorem main_with_keeps_heap (ident : Z) (s : state) :
  heap s ⊆ heap (final (main_with ident s)) /\
  (ident = 1 ->
   heap s !! fresh (dom (heap s)) = None /\
   heap (final (main_with ident s)) !! fresh (dom (heap s)) = Some alice) /\
  (ident <> 1 -> heap (final (main_with ident s)) = heap s).
Proof.
  destruct (Z.eq_dec ident 1) as [->|Hne].
  - rewrite main_with_found. cbn [final log_call emit heap].
    rewrite heap_set_heap. split; [|split].
    + apply insert_subseteq, fresh_not_live.
    + intros _. split; [apply fresh_not_live|apply lookup_insert_eq].
    + intros Hne. contradiction.
  - rewrite main_with_not_found by assumption. cbn [final log_call heap].
    split; [reflexivity|]. split; [contradiction|reflexivity].
Qed.
